(** * next.config.js: the exported Next.js configuration object

    The repository is a single CommonJS module, [next.config.js]:
<<
      const nextConfig = {
        experimental: { appDir: true, },
        images: { domains: ['images.unsplash.com', 'ik.imagekit.io',
                            'tailark.com', 'html.tailus.io'], },
      }
      module.exports = nextConfig
>>
    The development embeds the JavaScript values the module builds, the two
    statements of its body as computations in a small state-and-error
    monad over the module scope, and the way a host obtains the
    configuration (running the body inside the CommonJS wrapper and reading
    [module.exports]). *)

From Stdlib Require Import Ascii String.
From stdpp Require Import gmap strings list fin_maps.

Local Open Scope string_scope.
Local Set Warnings "-register-all".

(** ** JavaScript values *)

(** The values the module manipulates: booleans, strings, arrays and plain
    objects (a finite map from property names to values); [VUndef] is what
    reading a missing property yields. *)
Inductive value : Type :=
  | VUndef : value
  | VBool : bool -> value
  | VStr : string -> value
  | VArr : list value -> value
  | VObj : gmap string value -> value.

(** Property read [v.k]: a missing property of an object reads as
    [undefined]; the module never reads a property of anything else, which
    is left undefined here as well. *)
Definition get_prop (k : string) (v : value) : value :=
  match v with
  | VObj fields => default VUndef (fields !! k)
  | _ => VUndef
  end.

(** [Object.keys(v)] as a finite set. *)
Definition keys (v : value) : gset string :=
  match v with
  | VObj fields => dom fields
  | _ => ∅
  end.

Definition is_bool (v : value) : bool :=
  match v with VBool _ => true | _ => false end.

(** The elements of an array value. *)
Definition elements_of (v : value) : list value :=
  match v with VArr l => l | _ => [] end.

(** The strings among a list of values, in order; a non-string entry
    contributes nothing. *)
Definition strings_of (l : list value) : list string :=
  omap (fun v => match v with VStr s => Some s | _ => None end) l.

(** ** The literal of the source *)

(** Line 7: the array literal of [images.domains], in its written order. *)
Definition domains : list string :=
  ["images.unsplash.com"; "ik.imagekit.io"; "tailark.com"; "html.tailus.io"].

(** Lines 3-5: [experimental: { appDir: true }]. *)
Definition experimental : gmap string value :=
  {[ "appDir" := VBool true ]}.

(** Lines 6-8: [images: { domains: [...] }], for any array of host names;
    the source's is [images domains]. *)
Definition images (ds : list string) : gmap string value :=
  {[ "domains" := VArr (VStr <$> ds) ]}.

(** Lines 2-9: the object literal bound to [nextConfig]. *)
Definition nextConfig : value :=
  VObj (<["experimental" := VObj experimental]>
        (<["images" := VObj (images domains)]> ∅)).

(** Line 11 exports the object itself, so the host reads its fields through
    the exported value.  The specification calls [images.domains]
    [imageRemoteSources] and [experimental] [experimentalFlags]. *)
Definition imageRemoteSources (cfg : value) : list value :=
  elements_of (get_prop "domains" (get_prop "images" cfg)).

Definition experimentalFlags (cfg : value) : gmap string value :=
  match get_prop "experimental" cfg with
  | VObj flags => flags
  | _ => ∅
  end.

(** ** Running the module *)

(** What a statement can throw. *)
Inductive error : Type :=
  | ReferenceError : string -> error
  | TypeError : string -> error.

Inductive result (A : Type) : Type :=
  | Ok : A -> result A
  | Throw : error -> result A.
Arguments Ok {A} _.
Arguments Throw {A} _.

(** The bindings a statement of the module can see: the bindings of the
    module's own function scope, and behind them the global object shared
    with the rest of the process. *)
Record scope : Type := Scope {
  locals : gmap string value;
  globals : gmap string value
}.

(** A statement is a computation over the scope that may throw. *)
Definition JS (A : Type) : Type := scope -> result (A * scope).

Definition ret {A} (a : A) : JS A := fun sc => Ok (a, sc).

Definition bind {A B} (m : JS A) (k : A -> JS B) : JS B :=
  fun sc =>
    match m sc with
    | Ok (a, sc') => k a sc'
    | Throw e => Throw e
    end.

Notation "'let*' x ':=' m 'in' k" := (bind m (fun x => k))
  (at level 10, x name, m at level 100, k at level 200).
Notation "m ';;' k" := (bind m (fun _ => k))
  (at level 100, k at level 200, right associativity).

(** [const x = v]: a new binding in the module scope. *)
Definition declare_const (x : string) (v : value) : JS unit :=
  fun sc => Ok (tt, Scope (<[x := v]> (locals sc)) (globals sc)).

(** Reading the identifier [x]: the module scope first, then the globals;
    an unbound identifier throws a ReferenceError. *)
Definition read_var (x : string) : JS value :=
  fun sc =>
    match locals sc !! x with
    | Some v => Ok (v, sc)
    | None =>
        match globals sc !! x with
        | Some v => Ok (v, sc)
        | None => Throw (ReferenceError x)
        end
    end.

(** [x.k = v]: the object bound to [x] gets the property [k], in the scope
    where [x] is bound.  A target that is not an object makes the
    statement throw (for [undefined] this is JavaScript's TypeError; the
    module only ever assigns to the [module] object). *)
Definition assign_prop (x k : string) (v : value) : JS unit :=
  fun sc =>
    match locals sc !! x with
    | Some (VObj fields) =>
        Ok (tt, Scope (<[x := VObj (<[k := v]> fields)]> (locals sc)) (globals sc))
    | Some _ => Throw (TypeError x)
    | None =>
        match globals sc !! x with
        | Some (VObj fields) =>
            Ok (tt, Scope (locals sc) (<[x := VObj (<[k := v]> fields)]> (globals sc)))
        | Some _ => Throw (TypeError x)
        | None => Throw (ReferenceError x)
        end
    end.

(** The body of the file, for any object literal [lit] written at lines
    2-9: [const nextConfig = lit] and [module.exports = nextConfig]. *)
Definition config_module (lit : value) : JS unit :=
  declare_const "nextConfig" lit ;;
  let* v := read_var "nextConfig" in
  assign_prop "module" "exports" v.

(** The file itself. *)
Definition next_config_js : JS unit := config_module nextConfig.

(** The scope CommonJS gives a module body: [module] is a fresh object
    whose [exports] is an empty object, and [exports] is that same empty
    object. *)
Definition module_scope (g : gmap string value) : scope :=
  Scope (<["module" := VObj {[ "exports" := VObj ∅ ]}]>
         (<["exports" := VObj ∅]> ∅)) g.

(** Loading a module: run its body in a fresh module scope over the
    globals [g], then hand out [module.exports] together with the globals
    the body leaves behind. *)
Definition require_module (body : JS unit) (g : gmap string value)
  : result (value * gmap string value) :=
  match (body ;; read_var "module") (module_scope g) with
  | Ok (m, sc) => Ok (get_prop "exports" m, globals sc)
  | Throw e => Throw e
  end.

(** [load()]: the host loads [next.config.js]. *)
Definition load (g : gmap string value) : result (value * gmap string value) :=
  require_module next_config_js g.

(** ** The hostname pattern *)

Definition is_letter (c : ascii) : bool :=
  let n := nat_of_ascii c in
  ((65 <=? n)%nat && (n <=? 90)%nat) || ((97 <=? n)%nat && (n <=? 122)%nat).

Definition is_digit (c : ascii) : bool :=
  let n := nat_of_ascii c in (48 <=? n)%nat && (n <=? 57)%nat.

Definition is_hyphen (c : ascii) : bool := (nat_of_ascii c =? 45)%nat.

(** A character allowed inside a label: letter, digit or hyphen. *)
Definition is_ldh (c : ascii) : bool := is_letter c || is_digit c || is_hyphen c.

(** The pieces of [s] between occurrences of [sep]; the empty string has
    one (empty) piece. *)
Fixpoint split_on (sep : ascii) (s : string) : list string :=
  match s with
  | EmptyString => [EmptyString]
  | String c rest =>
      if Ascii.eqb c sep then EmptyString :: split_on sep rest
      else match split_on sep rest with
           | [] => [String c EmptyString]
           | piece :: pieces => String c piece :: pieces
           end
  end.

Fixpoint all_chars (p : ascii -> bool) (s : string) : bool :=
  match s with
  | EmptyString => true
  | String c rest => p c && all_chars p rest
  end.

Fixpoint last_char (s : string) : option ascii :=
  match s with
  | EmptyString => None
  | String c EmptyString => Some c
  | String _ rest => last_char rest
  end.

Definition first_char (s : string) : option ascii :=
  match s with
  | EmptyString => None
  | String c _ => Some c
  end.

Definition not_hyphen (o : option ascii) : bool :=
  match o with
  | Some c => negb (is_hyphen c)
  | None => false
  end.

(** A DNS label: 1 to 63 letters, digits and hyphens, with no hyphen at
    either end. *)
Definition valid_label (l : string) : bool :=
  (String.length l <=? 63)%nat
  && all_chars is_ldh l
  && not_hyphen (first_char l)
  && not_hyphen (last_char l).

(** The hostname pattern named by the specification: labels separated by
    dots, each a valid label, at most 253 characters in all. *)
Definition valid_hostname (s : string) : bool :=
  (String.length s <=? 253)%nat && forallb valid_label (split_on "." s).

(** An array entry passes when it is a string that is a valid hostname. *)
Definition is_hostname_entry (v : value) : bool :=
  match v with
  | VStr s => valid_hostname s
  | _ => false
  end.

(** ** Invocations in sequence *)

(** [n] invocations of [load()] one after the other in one process: each
    starts from the globals its predecessor left, and the results are
    collected in order. *)
Fixpoint load_seq (n : nat) (g : gmap string value)
  : result (list value * gmap string value) :=
  match n with
  | O => Ok ([], g)
  | S n' =>
      match load g with
      | Ok (cfg, g') =>
          match load_seq n' g' with
          | Ok (cfgs, g'') => Ok (cfg :: cfgs, g'')
          | Throw e => Throw e
          end
      | Throw e => Throw e
      end
  end.

(** The literal of the specification's scenario,
    [{ images: { domains: ds } }]. *)
Definition images_only (ds : list string) : value :=
  VObj {[ "images" := VObj (images ds) ]}.

(** * Properties *)

(** ** Reading the literal *)

Lemma nextConfig_images :
  get_prop "images" nextConfig = VObj (images domains).
Proof. reflexivity. Qed.

Lemma nextConfig_experimental :
  get_prop "experimental" nextConfig = VObj experimental.
Proof. reflexivity. Qed.

Lemma images_domains (ds : list string) :
  get_prop "domains" (VObj (images ds)) = VArr (VStr <$> ds).
Proof. unfold images, get_prop. by rewrite lookup_singleton_eq. Qed.

Lemma imageRemoteSources_nextConfig :
  imageRemoteSources nextConfig = VStr <$> domains.
Proof.
  unfold imageRemoteSources. by rewrite nextConfig_images, images_domains.
Qed.

Lemma imageRemoteSources_images_only (ds : list string) :
  imageRemoteSources (images_only ds) = VStr <$> ds.
Proof.
  unfold imageRemoteSources, images_only.
  replace (get_prop "images" (VObj {["images" := VObj (images ds)]}))
    with (VObj (images ds))
    by (unfold get_prop at 1; by rewrite lookup_singleton_eq).
  by rewrite images_domains.
Qed.

Lemma experimentalFlags_nextConfig :
  experimentalFlags nextConfig = experimental.
Proof. unfold experimentalFlags. by rewrite nextConfig_experimental. Qed.

Lemma strings_of_VStr (ds : list string) : strings_of (VStr <$> ds) = ds.
Proof.
  induction ds as [|d ds IH]; [done|].
  change (strings_of (VStr <$> d :: ds)) with (d :: strings_of (VStr <$> ds)).
  by rewrite IH.
Qed.

(** ** Running the body *)

(** [const] binds in the module scope and leaves the globals alone. *)
Lemma declare_const_spec x v sc :
  declare_const x v sc = Ok (tt, Scope (<[x := v]> (locals sc)) (globals sc)).
Proof. reflexivity. Qed.

(** An identifier bound in the module scope reads as its value there,
    whatever the globals hold. *)
Lemma read_var_local x v sc :
  locals sc !! x = Some v -> read_var x sc = Ok (v, sc).
Proof. intros H. unfold read_var. by rewrite H. Qed.

(** Assigning a property of a module-scope object leaves the globals
    alone. *)
Lemma assign_prop_local x k v fields sc :
  locals sc !! x = Some (VObj fields) ->
  assign_prop x k v sc
  = Ok (tt, Scope (<[x := VObj (<[k := v]> fields)]> (locals sc)) (globals sc)).
Proof. intros H. unfold assign_prop. by rewrite H. Qed.

(** The body, run in a fresh module scope, ends with [module.exports] and
    [nextConfig] both holding the literal, and with the globals it
    started from. *)
Lemma config_module_run lit g :
  config_module lit (module_scope g)
  = Ok (tt, Scope (<["module" := VObj (<["exports" := lit]> {[ "exports" := VObj ∅ ]})]>
                   (<["nextConfig" := lit]> (locals (module_scope g)))) g).
Proof.
  unfold config_module, bind. rewrite declare_const_spec.
  rewrite (read_var_local "nextConfig" lit) by apply lookup_insert_eq.
  erewrite assign_prop_local; [done|].
  cbn [locals module_scope].
  rewrite lookup_insert_ne by done. apply lookup_insert_eq.
Qed.

(** Loading the module of any literal returns that literal and the globals
    unchanged. *)
Lemma require_config_module lit g :
  require_module (config_module lit) g = Ok (lit, g).
Proof.
  unfold require_module, bind. rewrite config_module_run.
  rewrite (read_var_local "module" (VObj (<["exports" := lit]> {[ "exports" := VObj ∅ ]})))
    by apply lookup_insert_eq.
  cbn [get_prop globals]. by rewrite lookup_insert_eq.
Qed.

Lemma load_spec g : load g = Ok (nextConfig, g).
Proof. apply require_config_module. Qed.

Lemma load_seq_spec n g : load_seq n g = Ok (replicate n nextConfig, g).
Proof.
  revert g. induction n as [|n IH]; intros g; [done|].
  cbn [load_seq replicate]. by rewrite load_spec, IH.
Qed.

(** ** The host names *)

Lemma domains_NoDup : NoDup domains.
Proof. apply (bool_decide_unpack _). by vm_compute. Qed.

#[global] Instance VStr_inj : Inj (=) (=) VStr.
Proof. intros s t H. by injection H. Qed.

Lemma valid_hostname_nonempty (s : string) :
  valid_hostname s = true -> s <> "".
Proof. intros H ->. discriminate H. Qed.

Lemma domains_valid : Forall (fun s => valid_hostname s = true) domains.
Proof. unfold domains. repeat constructor. Qed.

(** * The claims *)

(** C1. Every invocation of [load()] returns the same configuration,
    whatever the globals of the process hold, and leaves those globals as
    it found them; any number of invocations in a row return that one
    configuration each time, and its host names are the set written in the
    source. *)
Theorem load_deterministic :
  exists cfg : value,
    (forall g : gmap string value, load g = Ok (cfg, g))
    /\ (forall (n : nat) (g : gmap string value),
          load_seq n g = Ok (replicate n cfg, g))
    /\ (list_to_set (strings_of (imageRemoteSources cfg)) : gset string)
       = list_to_set domains.
Proof.
  exists nextConfig. split; [apply load_spec|]. split; [apply load_seq_spec|].
  by rewrite imageRemoteSources_nextConfig, strings_of_VStr.
Qed.

(** C2. The [images.domains] list of the loaded configuration has no
    duplicates: entries at two distinct positions are different. *)
Theorem imageRemoteSources_no_duplicates (g : gmap string value) :
  exists cfg : value,
    load g = Ok (cfg, g)
    /\ NoDup (imageRemoteSources cfg)
    /\ (forall (i j : nat) (x y : value),
          i <> j ->
          imageRemoteSources cfg !! i = Some x ->
          imageRemoteSources cfg !! j = Some y ->
          x <> y).
Proof.
  exists nextConfig. split; [apply load_spec|].
  assert (Hnd : NoDup (imageRemoteSources nextConfig)).
  { rewrite imageRemoteSources_nextConfig.
    apply (NoDup_fmap_2 VStr), domains_NoDup. }
  split; [exact Hnd|].
  intros i j x y Hij Hi Hj ->.
  apply Hij. eapply NoDup_lookup; eauto.
Qed.

(** C3. Every entry of [images.domains] in the loaded configuration is a
    non-empty string matching the hostname pattern; the pattern accepts
    [images.unsplash.com] and rejects [not a host!]. *)
Theorem imageRemoteSources_valid_hostnames (g : gmap string value) :
  exists cfg : value,
    load g = Ok (cfg, g)
    /\ Forall (fun v => exists s : string,
                 v = VStr s /\ s <> "" /\ valid_hostname s = true)
              (imageRemoteSources cfg)
    /\ valid_hostname "images.unsplash.com" = true
    /\ valid_hostname "not a host!" = false.
Proof.
  exists nextConfig. split; [apply load_spec|].
  split; [|split; reflexivity].
  rewrite imageRemoteSources_nextConfig. apply Forall_fmap.
  eapply Forall_impl; [apply domains_valid|].
  intros s Hs. exists s. split; [done|]. split; [|done].
  by apply valid_hostname_nonempty.
Qed.

(** C4. The keys of [experimental] in the loaded configuration are the
    fixed set [{appDir}]: any other key is absent, and every value of the
    mapping is a boolean. *)
Theorem experimentalFlags_fixed_keys (g : gmap string value) :
  exists cfg : value,
    load g = Ok (cfg, g)
    /\ dom (experimentalFlags cfg) = ({[ "appDir" ]} : gset string)
    /\ (forall k : string, k <> "appDir" -> experimentalFlags cfg !! k = None)
    /\ map_Forall (fun _ v => is_bool v = true) (experimentalFlags cfg).
Proof.
  exists nextConfig. split; [apply load_spec|].
  rewrite experimentalFlags_nextConfig. unfold experimental.
  split; [apply dom_singleton_L|].
  split; [intros k Hk; by apply lookup_singleton_ne|].
  by apply map_Forall_singleton.
Qed.

(** C5. [load()] never throws: it returns normally from any state of the
    globals, and the module would return normally whatever literal were
    written in it, since nothing inspects the values; a literal whose only
    domain is the invalid host name [not a host!] is returned as it is. *)
Theorem load_never_throws :
  (forall g : gmap string value, exists r, load g = Ok r)
  /\ (forall (lit : value) (g : gmap string value),
        require_module (config_module lit) g = Ok (lit, g))
  /\ (forall g : gmap string value,
        is_hostname_entry (VStr "not a host!") = false
        /\ exists cfg : value,
             require_module (config_module (images_only ["not a host!"])) g
             = Ok (cfg, g)
             /\ imageRemoteSources cfg = [VStr "not a host!"]).
Proof.
  split; [intros g; eexists; apply load_spec|].
  split; [apply require_config_module|].
  intros g. split; [reflexivity|].
  eexists. split; [apply require_config_module|].
  apply imageRemoteSources_images_only.
Qed.

(** C7. The loaded [images.domains] is the declared list in its declared
    order, nothing moved and nothing dropped: for the literal
    [{ images: { domains: ['a.com','b.com'] } }] it is [['a.com','b.com']],
    for any declared list (with repeated entries or not) it is that list,
    and for the source it is the list as written. *)
Theorem load_preserves_order (g : gmap string value) :
  (exists cfg : value,
      require_module (config_module (images_only ["a.com"; "b.com"])) g
      = Ok (cfg, g)
      /\ imageRemoteSources cfg = [VStr "a.com"; VStr "b.com"])
  /\ (forall ds : list string,
        exists cfg : value,
          require_module (config_module (images_only ds)) g = Ok (cfg, g)
          /\ imageRemoteSources cfg = VStr <$> ds)
  /\ (exists cfg : value,
        load g = Ok (cfg, g)
        /\ imageRemoteSources cfg
           = [VStr "images.unsplash.com"; VStr "ik.imagekit.io";
              VStr "tailark.com"; VStr "html.tailus.io"]).
Proof.
  split; [|split].
  - eexists. split; [apply require_config_module|].
    apply imageRemoteSources_images_only.
  - intros ds. eexists. split; [apply require_config_module|].
    apply imageRemoteSources_images_only.
  - exists nextConfig. split; [apply load_spec|].
    apply imageRemoteSources_nextConfig.
Qed.

(** C8. The exported value is exactly
    [{ experimental: { appDir: true }, images: { domains: [...] } }] with
    the four host names of the source in their order: [experimental.appDir]
    is [true] and [images.domains] is that list. *)
Theorem exported_value_exact (g : gmap string value) :
  exists cfg : value,
    load g = Ok (cfg, g)
    /\ cfg = VObj {[ "experimental" := VObj {[ "appDir" := VBool true ]};
                     "images" :=
                       VObj {[ "domains" :=
                                 VArr [VStr "images.unsplash.com";
                                       VStr "ik.imagekit.io";
                                       VStr "tailark.com";
                                       VStr "html.tailus.io"] ]} ]}
    /\ get_prop "appDir" (get_prop "experimental" cfg) = VBool true
    /\ get_prop "domains" (get_prop "images" cfg)
       = VArr [VStr "images.unsplash.com"; VStr "ik.imagekit.io";
               VStr "tailark.com"; VStr "html.tailus.io"].
Proof.
  exists nextConfig. split; [apply load_spec|].
  split; [|split].
  - unfold nextConfig, experimental, images, domains.
    by rewrite insert_empty.
  - rewrite nextConfig_experimental. unfold experimental, get_prop.
    by rewrite lookup_singleton_eq.
  - by rewrite nextConfig_images, images_domains.
Qed.

(** C9. The exported object has exactly the top-level keys [experimental]
    and [images]; [experimental] has exactly the key [appDir] and [images]
    exactly the key [domains]. *)
Theorem exported_keys_exact (g : gmap string value) :
  exists cfg : value,
    load g = Ok (cfg, g)
    /\ keys cfg = ({[ "experimental"; "images" ]} : gset string)
    /\ keys (get_prop "experimental" cfg) = ({[ "appDir" ]} : gset string)
    /\ keys (get_prop "images" cfg) = ({[ "domains" ]} : gset string).
Proof.
  exists nextConfig. split; [apply load_spec|].
  split; [|split].
  - unfold nextConfig, keys.
    rewrite !dom_insert_L, dom_empty_L. set_solver.
  - rewrite nextConfig_experimental. apply dom_singleton_L.
  - rewrite nextConfig_images. apply dom_singleton_L.
Qed.

(** * The body in other scopes *)

(** The claims above run the body where CommonJS puts it.  The two
    statements themselves only ask that [module] resolve to an object; the
    results below say what they do in any scope, and what they do when
    that is not so.  They are stated for scopes that do not declare
    [nextConfig] already: elsewhere the [const] of line 2 is a redeclaration
    and the file is rejected before it runs. *)

(** After [const nextConfig = lit], [module] resolves as it did before. *)
Lemma lookup_module_after_const (lit : value) (m : gmap string value) :
  <["nextConfig" := lit]> m !! "module" = m !! "module".
Proof. by apply lookup_insert_ne. Qed.

(** [module] bound to an object in the module scope: the final scope. *)
Lemma config_module_local lit sc fields :
  locals sc !! "module" = Some (VObj fields) ->
  config_module lit sc
  = Ok (tt, Scope (<["module" := VObj (<["exports" := lit]> fields)]>
                   (<["nextConfig" := lit]> (locals sc))) (globals sc)).
Proof.
  intros Hm. unfold config_module, bind. rewrite declare_const_spec.
  rewrite (read_var_local "nextConfig" lit) by apply lookup_insert_eq.
  erewrite assign_prop_local; [done|].
  cbn [locals]. by rewrite lookup_module_after_const.
Qed.

(** [module] bound to an object among the globals only: the final scope. *)
Lemma config_module_global lit sc fields :
  locals sc !! "module" = None ->
  globals sc !! "module" = Some (VObj fields) ->
  config_module lit sc
  = Ok (tt, Scope (<["nextConfig" := lit]> (locals sc))
                  (<["module" := VObj (<["exports" := lit]> fields)]> (globals sc))).
Proof.
  intros Hl Hg. unfold config_module, bind. rewrite declare_const_spec.
  rewrite (read_var_local "nextConfig" lit) by apply lookup_insert_eq.
  unfold assign_prop. cbn [locals globals].
  by rewrite lookup_module_after_const, Hl, Hg.
Qed.

(** X1. Where [module] is bound neither in the module scope nor among the
    globals (the file evaluated outside CommonJS), the body throws
    [ReferenceError] for [module], whatever the literal. *)
Theorem config_module_unbound_module (lit : value) (sc : scope) :
  locals sc !! "nextConfig" = None ->
  locals sc !! "module" = None ->
  globals sc !! "module" = None ->
  config_module lit sc = Throw (ReferenceError "module").
Proof.
  intros _ Hl Hg. unfold config_module, bind. rewrite declare_const_spec.
  rewrite (read_var_local "nextConfig" lit) by apply lookup_insert_eq.
  unfold assign_prop. cbn [locals globals].
  by rewrite lookup_module_after_const, Hl, Hg.
Qed.

Lemma config_module_unbound_module_witness :
  locals (Scope ∅ ∅) !! "nextConfig" = None
  /\ locals (Scope ∅ ∅) !! "module" = None
  /\ globals (Scope ∅ ∅) !! "module" = None
  /\ config_module nextConfig (Scope ∅ ∅) = Throw (ReferenceError "module").
Proof.
  split; [reflexivity|]. split; [reflexivity|]. split; [reflexivity|].
  apply (config_module_unbound_module nextConfig (Scope ∅ ∅)); reflexivity.
Defined.

(** X2. Where [module] resolves to [undefined] (in the module scope, or
    among the globals with no binding in the module scope), the assignment
    to [module.exports] throws a [TypeError]. *)
Theorem config_module_undefined_module (lit : value) (sc : scope) :
  locals sc !! "nextConfig" = None ->
  locals sc !! "module" = Some VUndef
  \/ (locals sc !! "module" = None /\ globals sc !! "module" = Some VUndef) ->
  config_module lit sc = Throw (TypeError "module").
Proof.
  intros _ H. unfold config_module, bind. rewrite declare_const_spec.
  rewrite (read_var_local "nextConfig" lit) by apply lookup_insert_eq.
  unfold assign_prop. cbn [locals globals].
  rewrite lookup_module_after_const.
  destruct H as [Hl | [Hl Hg]]; [by rewrite Hl | by rewrite Hl, Hg].
Qed.

Lemma config_module_undefined_module_witness :
  locals (Scope {[ "module" := VUndef ]} ∅) !! "nextConfig" = None
  /\ locals (Scope {[ "module" := VUndef ]} ∅) !! "module" = Some VUndef
  /\ config_module nextConfig (Scope {[ "module" := VUndef ]} ∅)
     = Throw (TypeError "module").
Proof.
  split; [reflexivity|]. split; [reflexivity|].
  apply (config_module_undefined_module nextConfig
           (Scope {[ "module" := VUndef ]} ∅)); [reflexivity|].
  left. reflexivity.
Defined.

(** X3. With [module] an object of the module scope, the body succeeds and
    replaces [module.exports] by the literal: whatever [exports] held
    before is gone, and every other property of [module] is kept. *)
Theorem config_module_replaces_exports
    (lit : value) (sc : scope) (fields : gmap string value) :
  locals sc !! "nextConfig" = None ->
  locals sc !! "module" = Some (VObj fields) ->
  exists (sc' : scope) (fields' : gmap string value),
    config_module lit sc = Ok (tt, sc')
    /\ locals sc' !! "module" = Some (VObj fields')
    /\ get_prop "exports" (VObj fields') = lit
    /\ (forall k : string,
          k <> "exports" ->
          get_prop k (VObj fields') = get_prop k (VObj fields)).
Proof.
  intros _ Hm. eexists _, _. split; [by apply config_module_local|].
  cbn [locals]. split; [apply lookup_insert_eq|].
  cbn [get_prop]. split; [by rewrite lookup_insert_eq|].
  intros k Hk. by rewrite lookup_insert_ne.
Qed.

Lemma config_module_replaces_exports_witness :
  let fields : gmap string value :=
    {[ "exports" := VStr "old"; "id" := VStr "next.config.js" ]} in
  let sc := Scope {[ "module" := VObj fields ]} ∅ in
  locals sc !! "nextConfig" = None
  /\ locals sc !! "module" = Some (VObj fields)
  /\ exists (sc' : scope) (fields' : gmap string value),
       config_module nextConfig sc = Ok (tt, sc')
       /\ locals sc' !! "module" = Some (VObj fields')
       /\ get_prop "exports" (VObj fields') = nextConfig
       /\ (forall k : string,
             k <> "exports" ->
             get_prop k (VObj fields') = get_prop k (VObj fields)).
Proof.
  intros fields sc.
  assert (Hc : locals sc !! "nextConfig" = None) by reflexivity.
  assert (H : locals sc !! "module" = Some (VObj fields)) by reflexivity.
  split; [exact Hc|]. split; [exact H|].
  exact (config_module_replaces_exports nextConfig sc fields Hc H).
Defined.

(** X4. With [module] an object of the module scope, the body writes
    nothing but the two bindings [nextConfig] and [module] of that scope:
    every other binding of the module scope (the [exports] parameter among
    them) and every global keeps its value. *)
Theorem config_module_frame
    (lit : value) (sc : scope) (fields : gmap string value) :
  locals sc !! "nextConfig" = None ->
  locals sc !! "module" = Some (VObj fields) ->
  exists sc' : scope,
    config_module lit sc = Ok (tt, sc')
    /\ globals sc' = globals sc
    /\ locals sc' !! "nextConfig" = Some lit
    /\ (forall x : string,
          x <> "module" -> x <> "nextConfig" ->
          locals sc' !! x = locals sc !! x).
Proof.
  intros _ Hm. eexists. split; [by apply config_module_local|].
  cbn [locals globals]. split; [done|]. split.
  - rewrite lookup_insert_ne by done. apply lookup_insert_eq.
  - intros x Hx1 Hx2. by rewrite !lookup_insert_ne.
Qed.

Lemma config_module_frame_witness :
  let g : gmap string value := {[ "nextConfig" := VStr "global" ]} in
  let sc := module_scope g in
  locals sc !! "nextConfig" = None
  /\ locals sc !! "module" = Some (VObj {[ "exports" := VObj ∅ ]})
  /\ exists sc' : scope,
       config_module nextConfig sc = Ok (tt, sc')
       /\ globals sc' = globals sc
       /\ locals sc' !! "nextConfig" = Some nextConfig
       /\ (forall x : string,
             x <> "module" -> x <> "nextConfig" ->
             locals sc' !! x = locals sc !! x).
Proof.
  intros g sc.
  assert (Hc : locals sc !! "nextConfig" = None) by reflexivity.
  assert (H : locals sc !! "module" = Some (VObj {[ "exports" := VObj ∅ ]}))
    by reflexivity.
  split; [exact Hc|]. split; [exact H|].
  exact (config_module_frame nextConfig sc _ Hc H).
Defined.

(** X5. With [module] an object found only among the globals, the body
    succeeds by writing to that global object: its [exports] becomes the
    literal, and no other global changes. *)
Theorem config_module_writes_global_module
    (lit : value) (sc : scope) (fields : gmap string value) :
  locals sc !! "nextConfig" = None ->
  locals sc !! "module" = None ->
  globals sc !! "module" = Some (VObj fields) ->
  exists sc' : scope,
    config_module lit sc = Ok (tt, sc')
    /\ globals sc' !! "module" = Some (VObj (<["exports" := lit]> fields))
    /\ (forall x : string,
          x <> "module" -> globals sc' !! x = globals sc !! x).
Proof.
  intros _ Hl Hg. eexists. split; [by apply config_module_global|].
  cbn [globals]. split; [apply lookup_insert_eq|].
  intros x Hx. by rewrite lookup_insert_ne.
Qed.

Lemma config_module_writes_global_module_witness :
  let sc := Scope ∅ {[ "module" := VObj ∅ ]} in
  locals sc !! "nextConfig" = None
  /\ locals sc !! "module" = None
  /\ globals sc !! "module" = Some (VObj ∅)
  /\ exists sc' : scope,
       config_module nextConfig sc = Ok (tt, sc')
       /\ globals sc' !! "module" = Some (VObj (<["exports" := nextConfig]> ∅))
       /\ (forall x : string,
             x <> "module" -> globals sc' !! x = globals sc !! x).
Proof.
  intros sc.
  assert (Hc : locals sc !! "nextConfig" = None) by reflexivity.
  assert (Hl : locals sc !! "module" = None) by reflexivity.
  assert (Hg : globals sc !! "module" = Some (VObj ∅)) by reflexivity.
  split; [exact Hc|]. split; [exact Hl|]. split; [exact Hg|].
  exact (config_module_writes_global_module nextConfig sc ∅ Hc Hl Hg).
Defined.
